(** * coreweave/virtual_server.py: the VirtualServer client

    A shallow embedding of [VirtualServerClient] (the condition table
    [EXPECTED_CONDITIONS], [match_condition], the watch loop of [ready]
    and the manifest checks of [create]) together with the properties
    of the lifecycle watcher that hold, or fail, on that code. *)

From stdpp Require Import base option strings list gmap fin_maps.

Open Scope string_scope.

(** ** Python values that the client handles

    A Kubernetes condition is a JSON object with string values, read in
    Python as a [dict]: [gmap string string].  Key presence
    (['reason' in condition]) is [is_Some (condition !! "reason")]. *)

Module VirtualServerClient.

(** One entry of the class attribute [EXPECTED_CONDITIONS]: a dict with
    exactly the keys [reason], [status] and [type]. *)
Record OutcomeSpec := mkSpec {
  spec_reason : string;
  spec_status : string;
  spec_type : string
}.

Definition GROUP : string := "virtualservers.coreweave.com".
Definition VERSION : string := "v1alpha1".
Definition PLURAL : string := "virtualservers".

(** [EXPECTED_CONDITIONS], lines 16-32. *)
Definition EXPECTED_CONDITIONS : gmap string OutcomeSpec :=
  <["Stopped" := mkSpec "VirtualServerStopped" "False" "Ready"]>
  (<["Ready" := mkSpec "VirtualServerReady" "True" "Ready"]>
  (<["Terminating" := mkSpec "Terminating" "False" "Ready"]> ∅)).

(** The dict that an entry of the table denotes. *)
Definition spec_dict (s : OutcomeSpec) : gmap string string :=
  <["reason" := spec_reason s]>
  (<["status" := spec_status s]>
  (<["type" := spec_type s]> ∅)).

(** ['k' in condition and _c['k'] == condition['k']] *)
Definition key_agrees (condition : gmap string string) (k expected : string) : bool :=
  match condition !! k with
  | Some v => bool_decide (expected = v)
  | None => false
  end.

(** [match_condition], lines 74-82.  [None] is Python's [None]. *)
Definition match_condition (condition : gmap string string)
    (expected_status : string) : option string :=
  match EXPECTED_CONDITIONS !! expected_status with
  | Some _c =>
      if key_agrees condition "reason" (spec_reason _c)
         && key_agrees condition "status" (spec_status _c)
         && key_agrees condition "type" (spec_type _c)
      then Some expected_status
      else None
  | None => None
  end.

(** ** Watch events

    An event of [watch.Watch().stream] is [{'type': ..., 'object': ...}];
    the loop reads [event['type']] and [event['object'].get('status', {})],
    and in the status the keys [conditions] and [network].  A missing key
    is [None]. *)

Record Network := mkNetwork {
  externalIP : option string
}.

Record Status := mkStatus {
  conditions : option (list (gmap string string));
  network : option Network
}.

Record Event := mkEvent {
  ev_type : string;
  ev_status : option Status
}.

(** [{}], the default of [.get('status', {})]. *)
Definition empty_status : Status := mkStatus None None.

Definition get_status (event : Event) : Status :=
  default empty_status (ev_status event).

(** The exceptions that the modelled code can raise. *)
Inductive exn :=
| KeyError (key : string)
| IndexError
| TypeError (msg : string)
| ValueError (msg : string)
| ApiException (code : nat).

(** What [_wait] hands back: [None] or the dict [{'ip': ...}]. *)
Inductive retval :=
| PyNone
| IpDict (ip : string).

(** What the user sees: [print] and [progress.add_task]. *)
Inductive output :=
| Printed (text : string)
| TaskAdded (description : string).

(** The state that the loop of [_wait] threads: the watch's stop flag
    ([w.stop()] sets it), the local [ready_condition] and the output
    produced so far (latest last). *)
Record WaitState := mkWaitState {
  w_stop : bool;
  ready_condition : option string;
  out : list output
}.

Definition set_ready_condition (rc : option string) (st : WaitState) : WaitState :=
  mkWaitState (w_stop st) rc (out st).

Definition print (text : string) (st : WaitState) : WaitState :=
  mkWaitState (w_stop st) (ready_condition st) (out st ++ [Printed text]).

Definition stop (st : WaitState) : WaitState :=
  mkWaitState true (ready_condition st) (out st).

(** How one run of the loop body ends. [Next] is both [continue] and
    reaching the end of the body. *)
Inductive Flow :=
| Next (st : WaitState)
| Break (st : WaitState)
| Return (v : retval) (st : WaitState)
| Raise (e : exn) (st : WaitState).

Definition deleted_msg (name : string) : string :=
  "[bold red]" ++ name ++ "[/bold red] has been [red]deleted[/red].".

(** The message of line 118; its f-string reads
    [status['network']['externalIP']] before anything is printed. *)
Definition ready_msg (name ip : string) : string :=
  "[green]" ++ name ++ " is ready![/green] External IP: [red]" ++ ip ++ "[/red]".

Definition but_is_msg (name rc : string) : string :=
  "[red]" ++ name ++ "[/red] but is [red]" ++ rc ++ "[/red].".

(** [status['network']['externalIP']]: each subscript raises [KeyError]
    on a missing key. *)
Definition status_external_ip (status : Status) : exn + string :=
  match network status with
  | None => inl (KeyError "network")
  | Some n =>
      match externalIP n with
      | None => inl (KeyError "externalIP")
      | Some ip => inr ip
      end
  end.

(** [not ready_condition]: [None] and the empty string are falsy. *)
Definition py_not (rc : option string) : bool :=
  match rc with
  | None => true
  | Some s => bool_decide (s = "")
  end.

(** The body of the [for event in w.stream(...)] loop, lines 105-124. *)
Definition loop_body (name expected_status : string) (event : Event)
    (st : WaitState) : Flow :=
  let status := get_status event in
  if bool_decide (ev_type event = "DELETE") then
    Break (stop (print (deleted_msg name)
                   (set_ready_condition (Some "Deleted") st)))
  else
    match conditions status with
    | None => Next st
    | Some [] => Raise IndexError st
    | Some (c :: _) =>
        let rc := match_condition c expected_status in
        let st := set_ready_condition rc st in
        if py_not rc then Next st
        else if bool_decide (rc = Some "Ready") then
          match status_external_ip status with
          | inl e => Raise e st
          | inr ip => Return (IpDict ip) (stop (print (ready_msg name ip) st))
          end
        else if bool_decide (rc = Some "Stopped")
                || bool_decide (rc = Some "Terminating") then
          Next (stop (print (but_is_msg name (default "" rc)) st))
        else Next st
    end.

(** Where a watch stands after the events delivered so far: still
    suspended in the stream waiting for the next event, returned to the
    caller, or left through an exception. *)
Inductive Outcome :=
| Waiting (st : WaitState)
| Returned (v : retval) (st : WaitState)
| Raised (e : exn) (st : WaitState).
(** How the stream of [w.stream] stands once it has delivered its events:
    the generator is blocked on the connection with nothing to deliver
    yet, it is exhausted (the connection ended and the client does not
    open it again), or it raised, as the client does with [ApiException]
    on an [ERROR] event. *)
Inductive StreamEnd :=
| Blocked
| Exhausted
| Broken (e : exn).

(** The [for] loop of [_wait] over the events that the stream delivers,
    in order, and then over the way the stream stands.  The stream is
    given no timeout, so while it is blocked the call is suspended
    ([Waiting]); when the generator is exhausted the loop is left and
    [_wait] returns [None], without [w.stop()]; an exception of the
    generator leaves the loop and the call.  When the generator is resumed
    after [w.stop()] it ends, and [_wait] returns [None] as it does after
    [break]. *)
Fixpoint wait_loop (name expected_status : string) (events : list Event)
    (ending : StreamEnd) (st : WaitState) : Outcome :=
  match events with
  | [] =>
      match ending with
      | Blocked => Waiting st
      | Exhausted => Returned PyNone st
      | Broken e => Raised e st
      end
  | event :: rest =>
      match loop_body name expected_status event st with
      | Next st' =>
          if w_stop st' then Returned PyNone st'
          else wait_loop name expected_status rest ending st'
      | Break st' => Returned PyNone st'
      | Return v st' => Returned v st'
      | Raise e st' => Raised e st'
      end
  end.

Definition waiting_msg (namespace name expected_status : string) : string :=
  "Waiting for VirtualServer " ++ name ++ " in namespace " ++ namespace
  ++ " to be " ++ expected_status ++ "...".

(** [ready], lines 84-131.  [progress] says whether a (truthy) progress
    object was passed; [events] and [ending] are what the one subscription
    that [w.stream] opens, filtered by [metadata.name], delivers. *)
Definition ready (namespace name expected_status : string) (progress : bool)
    (events : list Event) (ending : StreamEnd) : Outcome :=
  let announce :=
    if progress then TaskAdded (waiting_msg namespace name expected_status)
    else Printed (waiting_msg namespace name expected_status) in
  wait_loop name expected_status events ending
    (mkWaitState false None [announce]).

(** The state in which [ready] enters the loop. *)
Definition initial_state (namespace name expected_status : string)
    (progress : bool) : WaitState :=
  mkWaitState false None
    [if progress then TaskAdded (waiting_msg namespace name expected_status)
     else Printed (waiting_msg namespace name expected_status)].

(** ** Manifests and [create]

    Of a manifest, [create] reads [manifest['metadata']] and in it the
    keys [namespace] and [name]; the rest goes to the cluster untouched
    ([rest]). *)

Record Manifest := mkManifest {
  metadata : option (gmap string string);
  rest : list (string * string)
}.

(** One call of [self.api.create_namespaced_custom_object]. *)
Record ApiCall := mkApiCall {
  call_group : string;
  call_version : string;
  call_namespace : string;
  call_plural : string;
  call_body : Manifest
}.

Definition metadata_required_msg : string :=
  "`metadata` is required in manifest for VirtualServer creation.".

Definition identity_required_msg : string :=
  "`metadata.namespace` and `metadata.name` are required in manifest for VirtualServer creation.".

(** [d[k]] on a dict: [KeyError] when the key is missing. *)
Definition subscript {A} (d : gmap string A) (k : string) : exn + A :=
  match d !! k with
  | Some v => inr v
  | None => inl (KeyError k)
  end.

Section Gateway.

(** The cluster's answer to a call: the created object, or an
    exception of the API client. *)
Context {Obj : Type}.
Variable create_namespaced_custom_object : ApiCall → nat + Obj.

(** A failed call raises the client's [ApiException] with the HTTP
    status. *)
Definition api_result (r : nat + Obj) : exn + Obj :=
  match r with
  | inl code => inl (ApiException code)
  | inr obj => inr obj
  end.

(** [create], lines 40-55, over the log of calls made to the cluster
    so far (latest last). *)
Definition create (manifest : Manifest) (calls : list ApiCall)
    : (exn + Obj) * list ApiCall :=
  match metadata manifest with
  | None => (inl (KeyError "metadata"), calls)
  | Some md =>
      if bool_decide (md = ∅) then
        (inl (TypeError metadata_required_msg), calls)
      else
        match subscript md "namespace" with
        | inl e => (inl e, calls)
        | inr namespace =>
            match subscript md "name" with
            | inl e => (inl e, calls)
            | inr name =>
                if bool_decide (namespace = "") || bool_decide (name = "") then
                  (inl (ValueError identity_required_msg), calls)
                else
                  let call := mkApiCall GROUP VERSION namespace PLURAL manifest in
                  (api_result (create_namespaced_custom_object call),
                     (calls ++ [call])%list)
            end
        end
  end.

End Gateway.

End VirtualServerClient.

Import VirtualServerClient.


(** The caller of [ready] in [main.py], lines 150-154: [if result:] takes
    the dict (a dict with a key is truthy) and reads its [ip]; [None] is
    falsy and becomes one [ValueError], whatever ended the watch. *)
Module Main.

Definition no_ip_msg : string := "No IP address found for VirtualServer".

Definition ip_address (result : retval) : exn + string :=
  match result with
  | IpDict ip => inr ip
  | PyNone => inl (ValueError no_ip_msg)
  end.

End Main.

(** What the caller of [ready] gets: nothing while the call is still
    suspended, else the exception or the returned value. *)
Definition caller_view (o : Outcome) : option (exn + retval) :=
  match o with
  | Waiting _ => None
  | Returned v _ => Some (inr v)
  | Raised e _ => Some (inl e)
  end.

(** The watch has left [Waiting]: the call has returned or raised. *)
Definition decided (o : Outcome) : bool :=
  match o with
  | Waiting _ => false
  | _ => true
  end.

(** The events used in the examples below. *)
Definition condition_of (name : string) : gmap string string :=
  from_option spec_dict ∅ (EXPECTED_CONDITIONS !! name).

Definition event_with (kind : string) (conds : list (gmap string string))
    (net : option Network) : Event :=
  mkEvent kind (Some (mkStatus (Some conds) net)).

Definition no_status_event : Event := mkEvent "ADDED" None.
Definition deleted_event : Event := mkEvent "DELETE" None.
Definition ready_event (ip : string) : Event :=
  event_with "MODIFIED" [condition_of "Ready"] (Some (mkNetwork (Some ip))).
Definition stopped_event : Event :=
  event_with "MODIFIED" [condition_of "Stopped"] None.
Definition terminating_event : Event :=
  event_with "MODIFIED" [condition_of "Terminating"] None.

(** The event that a cluster sends when the resource is removed: its type
    is ['DELETED'] and its object is the last state of the resource. *)
Definition removed_event : Event :=
  event_with "DELETED" [condition_of "Terminating"] None.

(** The state in which an outcome leaves the loop. *)
Definition final_state (o : Outcome) : WaitState :=
  match o with
  | Waiting st | Returned _ st | Raised _ st => st
  end.

(** All three keys of a condition are present and agree with the entry. *)
Definition fields_equal (condition : gmap string string) (s : OutcomeSpec) : Prop :=
  condition !! "type" = Some (spec_type s)
  ∧ condition !! "status" = Some (spec_status s)
  ∧ condition !! "reason" = Some (spec_reason s).

(** An event that is not a deletion and whose first condition, if it
    reports one, is not the requested outcome: the loop passes over it. *)
Definition unmatched (expected_status : string) (event : Event) : Prop :=
  ev_type event ≠ "DELETE"
  ∧ match conditions (get_status event) with
    | None => True
    | Some [] => False
    | Some (c :: _) => match_condition c expected_status = None
    end.

(** The watch ended by returning with [ready_condition] set to the
    given outcome. *)
Definition resolves_to (o : Outcome) (outcome : string) : Prop :=
  ∃ v st, o = Returned v st ∧ ready_condition st = Some outcome.

(** An event that is not a deletion and does not carry an empty list of
    conditions. *)
Definition live (event : Event) : Prop :=
  ev_type event ≠ "DELETE" ∧ conditions (get_status event) ≠ Some [].

(** Name or namespace of a manifest, when the key is there. *)
Definition identity_field (manifest : Manifest) (k : string) : option string :=
  metadata manifest ≫= (.!! k).

Definition missing_or_empty (field : option string) : Prop :=
  field = None ∨ field = Some "".

(** The exceptions by which [create] rejects a manifest. *)
Definition invalid_manifest (e : exn) : Prop :=
  match e with
  | KeyError _ | TypeError _ | ValueError _ => True
  | _ => False
  end.

(** ** [update]

    [update], lines 57-72 of [virtual_server.py]: the checks of [create]
    with their own messages, then one call of
    [replace_namespaced_custom_object], which also takes the name. *)

Record ReplaceCall := mkReplaceCall {
  replace_group : string;
  replace_version : string;
  replace_namespace : string;
  replace_plural : string;
  replace_name : string;
  replace_body : Manifest
}.

Definition metadata_required_update_msg : string :=
  "`metadata` is required in manifest for VirtualServer update.".

Definition identity_required_update_msg : string :=
  "`metadata.namespace` and `metadata.name` are required in manifest for VirtualServer update.".

Definition update {Obj : Type}
    (replace_namespaced_custom_object : ReplaceCall → nat + Obj)
    (manifest : Manifest) (calls : list ReplaceCall)
    : (exn + Obj) * list ReplaceCall :=
  match metadata manifest with
  | None => (inl (KeyError "metadata"), calls)
  | Some md =>
      if bool_decide (md = ∅) then
        (inl (TypeError metadata_required_update_msg), calls)
      else
        match subscript md "namespace" with
        | inl e => (inl e, calls)
        | inr namespace =>
            match subscript md "name" with
            | inl e => (inl e, calls)
            | inr name =>
                if bool_decide (namespace = "") || bool_decide (name = "") then
                  (inl (ValueError identity_required_update_msg), calls)
                else
                  let call :=
                    mkReplaceCall GROUP VERSION namespace PLURAL name manifest in
                  (api_result (replace_namespaced_custom_object call),
                     (calls ++ [call])%list)
            end
        end
  end.

(** Two exceptions of the same class, whatever their message. *)
Definition same_class (e1 e2 : exn) : Prop :=
  match e1, e2 with
  | KeyError k1, KeyError k2 => k1 = k2
  | IndexError, IndexError => True
  | TypeError _, TypeError _ => True
  | ValueError _, ValueError _ => True
  | ApiException c1, ApiException c2 => c1 = c2
  | _, _ => False
  end.

(** ** [get_manifest]

    [get_manifest], lines 162-236 of [virtual_server.py], builds the
    manifest dict.  Its nested dicts have fixed keys, so they are records;
    a key that the function adds only on some paths ([gpu], and [type]
    under [cpu] and [gpu]) is an [option]. *)

Record CpuResources := mkCpu {
  cpu_count : Z;
  cpu_kind : option string
}.

Record GpuResources := mkGpu {
  gpu_count : Z;
  gpu_kind : option string
}.

Record Resources := mkResources {
  res_cpu : CpuResources;
  res_gpu : option GpuResources;
  res_memory : string
}.

Record RootStorage := mkRootStorage {
  root_accessMode : string;
  root_size : string;
  root_storageClassName : string;
  root_source : gmap string (gmap string string)
}.

Record VirtualServerSpec := mkVirtualServerSpec {
  vs_region : string;
  vs_os_type : string;
  vs_resources : Resources;
  vs_root : RootStorage
}.

Record NetworkConfig := mkNetworkConfig {
  directAttachLoadBalancerIP : bool;
  disableK8sNetworking : bool;
  dnsPolicy : string;
  headless : bool;
  public : bool
}.

Record VirtualServerManifest := mkVirtualServerManifest {
  vs_apiVersion : string;
  vs_kind : string;
  vs_metadata : gmap string string;
  vs_spec : VirtualServerSpec;
  vs_network : NetworkConfig;
  vs_users : list (gmap string string);
  vs_cloudInit : string;
  vs_runStrategy : string;
  vs_initializeRunning : bool
}.

(** The default of the parameter [network_config]. *)
Definition default_network_config : NetworkConfig :=
  mkNetworkConfig true false "ClusterFirst" false true.

(** The source that replaces a falsy [storage_source]. *)
Definition default_storage_source : gmap string (gmap string string) :=
  {["pvc" :=
      {["name" := "ubuntu2004-nvidia-550-54-15-1-docker-master-20240402-ord1";
        "namespace" := "vd-images"]}]}.

(** Truth value of an optional string argument: [None] and [''] are
    falsy. *)
Definition str_truthy (o : option string) : bool :=
  match o with
  | Some s => negb (bool_decide (s = ""))
  | None => false
  end.

(** Truth value of an optional dict argument: [None] and [{}] are falsy. *)
Definition dict_truthy {A} (o : option (gmap string A)) : bool :=
  match o with
  | Some d => negb (bool_decide (d = ∅))
  | None => false
  end.

(** ['{}\n'], the value of [cloudInit]. *)
Definition empty_cloud_init : string := "{}" ++ String (Ascii.ascii_of_nat 10) "".

Section Template.

(** [str.lower] of the Python runtime. *)
Variable lower : string → string.

Definition get_manifest (name namespace : string)
    (users : list (gmap string string)) (region : string)
    (network_config : NetworkConfig) (n_cpu n_gpu : Z)
    (cpu_type gpu_type : option string) (memory disk_size : string)
    (storage_source : option (gmap string (gmap string string)))
    : exn + VirtualServerManifest :=
  let storage_class_name := "block-nvme-" ++ lower region in
  let storage_source :=
    if dict_truthy storage_source then default ∅ storage_source
    else default_storage_source in
  let m (cpu : CpuResources) (gpu : option GpuResources) :=
    mkVirtualServerManifest
      (GROUP ++ "/" ++ VERSION) "VirtualServer"
      {["name" := name; "namespace" := namespace]}
      (mkVirtualServerSpec region "linux"
         (mkResources cpu gpu memory)
         (mkRootStorage "ReadWriteOnce" disk_size storage_class_name
            storage_source))
      network_config users empty_cloud_init "RerunOnFailure" true in
  let cpu := mkCpu n_cpu None in
  let gpu := if bool_decide (0 < n_gpu)%Z then Some (mkGpu n_gpu None) else None in
  if str_truthy cpu_type then
    inr (m (mkCpu n_cpu cpu_type) gpu)
  else if str_truthy gpu_type then
    match gpu with
    | Some g => inr (m cpu (Some (mkGpu (gpu_count g) gpu_type)))
    | None => inl (KeyError "gpu")
    end
  else inr (m cpu gpu).

End Template.

(** ** [main.py] *)

Module MainFlow.

Definition created_msg (name namespace : string) : string :=
  "Virtual server [bold red]" ++ name ++ "[/bold red] created in namespace [red]"
  ++ namespace ++ "[/red] :boom:".

(** Lines 139-154 of the command [create]: the call of [client.create],
    the message, the watch for Ready under a progress display, and the
    reading of the result.  It gives what the lines leave to the rest of
    the command (nothing while the watch is suspended, else the exception
    or the IP address), the calls made to the cluster and the output. *)
Definition create_and_wait {Obj : Type}
    (create_namespaced_custom_object : ApiCall → nat + Obj)
    (manifest : Manifest) (namespace name : string)
    (events : list Event) (ending : StreamEnd)
    : option (exn + string) * list ApiCall * list output :=
  match create create_namespaced_custom_object manifest [] with
  | (inl e, calls) => (Some (inl e), calls, [])
  | (inr _, calls) =>
      let shown := [Printed (created_msg name namespace)] in
      match ready namespace name "Ready" true events ending with
      | Waiting st => (None, calls, (shown ++ out st)%list)
      | Raised e st => (Some (inl e), calls, (shown ++ out st)%list)
      | Returned result st => (Some (Main.ip_address result), calls, (shown ++ out st)%list)
      end
  end.

Definition namespace_not_set_msg : string :=
  "KUBERNETES_NAMESPACE not set in environment.".

(** What running [main.py] as a script does before the command line is
    read: line 45 builds the client ([client_init] is the exception of
    that, if any), lines 55 and 219 evaluate
    [os.environ['KUBERNETES_NAMESPACE']] as the default of a parameter
    when the functions are defined, and lines 223-226 check the variable
    and enter [app()] ([inr tt]). *)
Definition run_script (environ : gmap string string) (client_init : option exn)
    : exn + unit :=
  match client_init with
  | Some e => inl e
  | None =>
      match subscript environ "KUBERNETES_NAMESPACE" with
      | inl e => inl e
      | inr _ =>
          match subscript environ "KUBERNETES_NAMESPACE" with
          | inl e => inl e
          | inr _ =>
              if bool_decide (environ !! "KUBERNETES_NAMESPACE" = None) then
                inl (ValueError namespace_not_set_msg)
              else inr tt
          end
      end
  end.

End MainFlow.

(** ** One run of the loop body, by cases *)

(** What the body does with an event, in the order of its tests. *)
Inductive body_spec (name expected_status : string) (event : Event)
    (st : WaitState) : Flow → Prop :=
| body_delete :
    ev_type event = "DELETE" →
    body_spec name expected_status event st
      (Break (stop (print (deleted_msg name)
                      (set_ready_condition (Some "Deleted") st))))
| body_no_conditions :
    ev_type event ≠ "DELETE" →
    conditions (get_status event) = None →
    body_spec name expected_status event st (Next st)
| body_empty_conditions :
    ev_type event ≠ "DELETE" →
    conditions (get_status event) = Some [] →
    body_spec name expected_status event st (Raise IndexError st)
| body_no_match c cs :
    ev_type event ≠ "DELETE" →
    conditions (get_status event) = Some (c :: cs) →
    match_condition c expected_status = None →
    body_spec name expected_status event st (Next (set_ready_condition None st))
| body_ready c cs n ip :
    ev_type event ≠ "DELETE" →
    conditions (get_status event) = Some (c :: cs) →
    match_condition c expected_status = Some "Ready" →
    expected_status = "Ready" →
    network (get_status event) = Some n →
    externalIP n = Some ip →
    body_spec name expected_status event st
      (Return (IpDict ip)
         (stop (print (ready_msg name ip)
                  (set_ready_condition (Some "Ready") st))))
| body_ready_no_ip c cs key :
    ev_type event ≠ "DELETE" →
    conditions (get_status event) = Some (c :: cs) →
    match_condition c expected_status = Some "Ready" →
    expected_status = "Ready" →
    status_external_ip (get_status event) = inl (KeyError key) →
    body_spec name expected_status event st
      (Raise (KeyError key) (set_ready_condition (Some "Ready") st))
| body_other c cs :
    ev_type event ≠ "DELETE" →
    conditions (get_status event) = Some (c :: cs) →
    match_condition c expected_status = Some expected_status →
    expected_status = "Stopped" ∨ expected_status = "Terminating" →
    body_spec name expected_status event st
      (Next (stop (print (but_is_msg name expected_status)
                     (set_ready_condition (Some expected_status) st)))).

(** What the loop reads of an event: its type, whether it has
    conditions and the first of them, and the network. *)
Definition head_view (event : Event)
    : string * option (option (gmap string string)) * option Network :=
  (ev_type event, head <$> conditions (get_status event),
   network (get_status event)).

(** A Ready event that decides a watch for Ready with the address [ip]:
    the events before it are passed over, it is no deletion, its first
    condition has the three values of the Ready entry and its network has
    the address. *)
Definition ready_decides (events : list Event) (ip : string) : Prop :=
  ∃ pre event post c cs n,
    events = (pre ++ event :: post)%list
    ∧ Forall (unmatched "Ready") pre
    ∧ ev_type event ≠ "DELETE"
    ∧ conditions (get_status event) = Some (c :: cs)
    ∧ fields_equal c (mkSpec "VirtualServerReady" "True" "Ready")
    ∧ network (get_status event) = Some n
    ∧ externalIP n = Some ip.

(** A deletion decides the watch: the events before it are passed
    over. *)
Definition delete_decides (expected_status : string) (events : list Event) : Prop :=
  ∃ pre event post,
    events = (pre ++ event :: post)%list
    ∧ Forall (unmatched expected_status) pre
    ∧ ev_type event = "DELETE".

(** ** The condition matcher *)

Section Matcher.

Implicit Types (condition : gmap string string) (k v : string).

Lemma key_agrees_true condition k v :
  key_agrees condition k v = true ↔ condition !! k = Some v.
Proof.
  unfold key_agrees. destruct (condition !! k) as [w|]; [|done].
  rewrite bool_decide_eq_true. split; congruence.
Qed.

Lemma match_condition_registered condition name s :
  EXPECTED_CONDITIONS !! name = Some s →
  match_condition condition name = Some name ↔ fields_equal condition s.
Proof.
  intros Hs. unfold match_condition, fields_equal. rewrite Hs.
  destruct (key_agrees condition "reason" _) eqn:Hr;
    destruct (key_agrees condition "status" _) eqn:Hst;
    destruct (key_agrees condition "type" _) eqn:Hty; simpl;
    rewrite <- ?key_agrees_true, ?Hr, ?Hst, ?Hty;
    split; try done; intros (? & ? & ?); congruence.
Qed.

Lemma match_condition_unregistered condition name :
  EXPECTED_CONDITIONS !! name = None → match_condition condition name = None.
Proof. intros H. unfold match_condition. by rewrite H. Qed.

Lemma match_condition_cases condition name :
  match_condition condition name = None
  ∨ match_condition condition name = Some name.
Proof.
  unfold match_condition.
  destruct (EXPECTED_CONDITIONS !! name); [|by left].
  destruct (_ && _); [by right | by left].
Qed.

Lemma spec_dict_fields s : fields_equal (spec_dict s) s.
Proof. unfold fields_equal, spec_dict. by simplify_map_eq. Qed.

(** The keys of the table. *)
Lemma registered_names name s :
  EXPECTED_CONDITIONS !! name = Some s →
  (name = "Stopped" ∧ s = mkSpec "VirtualServerStopped" "False" "Ready")
  ∨ (name = "Ready" ∧ s = mkSpec "VirtualServerReady" "True" "Ready")
  ∨ (name = "Terminating" ∧ s = mkSpec "Terminating" "False" "Ready").
Proof.
  unfold EXPECTED_CONDITIONS. intros H.
  destruct (decide (name = "Stopped")) as [->|?]; [simplify_map_eq; auto|].
  destruct (decide (name = "Ready")) as [->|?]; [simplify_map_eq; auto|].
  destruct (decide (name = "Terminating")) as [->|?]; [simplify_map_eq; auto|].
  by simplify_map_eq.
Qed.

(** Two entries that accept the same condition are the same entry:
    the reasons of the table are pairwise different. *)
Lemma match_condition_exclusive condition a b :
  match_condition condition a = Some a →
  match_condition condition b = Some b → a = b.
Proof.
  intros Ha Hb.
  destruct (EXPECTED_CONDITIONS !! a) as [sa|] eqn:Ea;
    [|by rewrite match_condition_unregistered in Ha].
  destruct (EXPECTED_CONDITIONS !! b) as [sb|] eqn:Eb;
    [|by rewrite match_condition_unregistered in Hb].
  apply (match_condition_registered _ _ _ Ea) in Ha as (_ & _ & Hra).
  apply (match_condition_registered _ _ _ Eb) in Hb as (_ & _ & Hrb).
  apply registered_names in Ea as [[-> ->]|[[-> ->]|[-> ->]]];
    apply registered_names in Eb as [[-> ->]|[[-> ->]|[-> ->]]];
    simpl in *; congruence.
Qed.

End Matcher.

(** ** More on the matcher *)

Lemma match_condition_some (condition : gmap string string) (name r : string) :
  match_condition condition name = Some r →
  r = name ∧ (name = "Stopped" ∨ name = "Ready" ∨ name = "Terminating").
Proof.
  intros Hm.
  destruct (match_condition_cases condition name) as [H|H]; [congruence|].
  split; [congruence|].
  destruct (EXPECTED_CONDITIONS !! name) as [s|] eqn:Es;
    [|by rewrite match_condition_unregistered in H].
  apply registered_names in Es as [[-> _]|[[-> _]|[-> _]]]; auto.
Qed.

Lemma match_condition_ready_fields (condition : gmap string string) :
  match_condition condition "Ready" = Some "Ready"
  ↔ fields_equal condition (mkSpec "VirtualServerReady" "True" "Ready").
Proof. by apply match_condition_registered. Qed.


(** ** The watch loop *)

Section Watch.

Variables name expected_status : string.

Local Abbreviation run := (wait_loop name expected_status).
Local Abbreviation step := (loop_body name expected_status).

Lemma ready_unfold namespace progress events ending :
  ready namespace name expected_status progress events ending
  = run events ending (initial_state namespace name expected_status progress).
Proof. reflexivity. Qed.

(** Events that leave the watch waiting are a prefix that the rest of
    the stream continues from. *)
Lemma wait_loop_app_waiting events more ending st st' :
  run events Blocked st = Waiting st' →
  run (events ++ more) ending st = run more ending st'.
Proof.
  revert st. induction events as [|event events IH]; intros st; simpl.
  - by intros [= ->].
  - destruct (step event st) as [st1|st1|v st1|e st1]; try done.
    destruct (w_stop st1); [done|]. apply IH.
Qed.

(** Once the call has returned or raised at an event, later events and
    the way the stream ends are not read. *)
Lemma wait_loop_app_decided events more ending st :
  decided (run events Blocked st) = true →
  run (events ++ more) ending st = run events Blocked st.
Proof.
  revert st. induction events as [|event events IH]; intros st; simpl.
  - done.
  - destruct (step event st) as [st1|st1|v st1|e st1]; try done.
    destruct (w_stop st1); [done|]. apply IH.
Qed.

Lemma wait_loop_decided_ending events ending st :
  decided (run events Blocked st) = true →
  run events ending st = run events Blocked st.
Proof.
  intros H. rewrite <- (app_nil_r events) at 1. by apply wait_loop_app_decided.
Qed.

(** A watch that is still waiting has not been stopped. *)
Lemma wait_loop_waiting_not_stopped events st st' :
  w_stop st = false → run events Blocked st = Waiting st' → w_stop st' = false.
Proof.
  revert st. induction events as [|event events IH]; intros st Hst; simpl.
  - by intros [= <-].
  - destruct (step event st) as [st1|st1|v st1|e st1]; try done.
    destruct (w_stop st1) eqn:H1; [done|]. by apply IH.
Qed.

Lemma loop_body_delete event st :
  ev_type event = "DELETE" →
  step event st
  = Break (stop (print (deleted_msg name) (set_ready_condition (Some "Deleted") st))).
Proof. intros H. unfold loop_body. by rewrite bool_decide_eq_true_2. Qed.

Lemma loop_body_conditions event st c cs :
  ev_type event ≠ "DELETE" →
  conditions (get_status event) = Some (c :: cs) →
  match_condition c expected_status = None →
  step event st = Next (set_ready_condition None st).
Proof.
  intros Hty Hc Hm. unfold loop_body.
  rewrite bool_decide_eq_false_2 by done. by rewrite Hc, Hm.
Qed.

(** An unmatched event changes neither the stop flag nor the output. *)
Lemma loop_body_unmatched event st :
  unmatched expected_status event →
  ∃ st', step event st = Next st' ∧ w_stop st' = w_stop st ∧ out st' = out st.
Proof.
  intros [Hty Hc]. destruct (conditions (get_status event)) as [[|c cs]|] eqn:E.
  - done.
  - exists (set_ready_condition None st).
    by rewrite (loop_body_conditions _ _ c cs).
  - exists st. unfold loop_body.
    rewrite bool_decide_eq_false_2 by done. by rewrite E.
Qed.

Lemma wait_loop_unmatched events st :
  Forall (unmatched expected_status) events → w_stop st = false →
  ∃ st', run events Blocked st = Waiting st' ∧ w_stop st' = false
    ∧ out st' = out st.
Proof.
  intros Hall. revert st. induction Hall as [|event events Hev _ IH]; intros st Hst.
  - by exists st.
  - destruct (loop_body_unmatched event st Hev) as (st1 & Hstep & Hstop & Hout).
    simpl. rewrite Hstep, Hstop, Hst.
    destruct (IH st1) as (st' & ? & ? & ?); [congruence|].
    exists st'. split_and!; congruence.
Qed.

(** After events that are all passed over, the outcome is that of the
    way the stream stands. *)
Lemma wait_loop_passed_over events ending st :
  Forall (unmatched expected_status) events → w_stop st = false →
  ∃ st', run events ending st = run [] ending st' ∧ w_stop st' = false
    ∧ out st' = out st.
Proof.
  intros Hall Hst.
  destruct (wait_loop_unmatched events st Hall Hst) as (st' & Hrun & ? & ?).
  exists st'. split; [|done].
  rewrite <- (app_nil_r events) at 1. by apply wait_loop_app_waiting.
Qed.

Lemma loop_body_spec event st :
  body_spec name expected_status event st (step event st).
Proof.
  unfold loop_body. case_bool_decide as Hty; [by constructor|].
  destruct (conditions (get_status event)) as [[|c cs]|] eqn:Hc;
    [by constructor| |by constructor].
  destruct (match_condition c expected_status) as [r|] eqn:Hm; simpl;
    [|by econstructor].
  destruct (match_condition_some _ _ _ Hm) as [Hr Hreg]. subst r.
  destruct Hreg as [He|[He|He]]; rewrite He in *; simpl.
  - by eapply body_other; eauto.
  - unfold status_external_ip.
    destruct (network (get_status event)) as [n|] eqn:Hn.
    + destruct (externalIP n) as [ip|] eqn:Hip.
      * by eapply body_ready.
      * eapply body_ready_no_ip; eauto.
        unfold status_external_ip. by rewrite Hn, Hip.
    + eapply body_ready_no_ip; eauto.
      unfold status_external_ip. by rewrite Hn.
  - by eapply body_other; eauto.
Qed.

(** A watch that is still waiting has passed over every event, on a
    stream that is blocked. *)
Lemma wait_loop_waiting_inv events ending st st' :
  run events ending st = Waiting st' → w_stop st = false →
  ending = Blocked ∧ Forall (unmatched expected_status) events
  ∧ out st' = out st.
Proof.
  revert st. induction events as [|event events IH]; intros st; simpl.
  - destruct ending; try done. by intros [= <-].
  - destruct (loop_body_spec event st) as
      [Hty|Hty Hc|Hty Hc|c cs Hty Hc Hm|c cs n ip Hty Hc Hm He Hn Hip
      |c cs key Hty Hc Hm He Hk|c cs Hty Hc Hm He]; simpl; try done.
    + intros Hrun Hst. rewrite Hst in Hrun.
      destruct (IH _ Hrun Hst) as (? & Hall & Hout).
      split_and!; try done. constructor; [|done]. split; [done|]. by rewrite Hc.
    + intros Hrun Hst. rewrite Hst in Hrun.
      destruct (IH _ Hrun) as (? & Hall & Hout); [done|].
      split_and!; try done. constructor; [|done]. split; [done|]. by rewrite Hc.
Qed.

(** A watch that has returned or raised at an event did so at one event,
    after passing over the events before it. *)
Lemma wait_loop_first_decisive events st :
  decided (run events Blocked st) = true → w_stop st = false →
  ∃ pre event post st1,
    events = (pre ++ event :: post)%list
    ∧ Forall (unmatched expected_status) pre
    ∧ run pre Blocked st = Waiting st1
    ∧ w_stop st1 = false ∧ out st1 = out st
    ∧ run [event] Blocked st1 = run events Blocked st.
Proof.
  revert st. induction events as [|event events IH]; intros st; [done|].
  intros Hdec Hst.
  destruct (step event st) as [st'|st'|v st'|e st'] eqn:Hstep.
  - destruct (w_stop st') eqn:Hst'.
    + exists [], event, events, st. simpl. by rewrite Hstep, Hst'.
    + simpl in Hdec. rewrite Hstep, Hst' in Hdec.
      destruct (IH st' Hdec Hst')
        as (pre & ev & post & st1 & -> & Hall & Hrun & ? & Hout & Hlast).
      assert (unmatched expected_status event ∧ out st' = out st) as [Hun Hout'].
      { destruct (wait_loop_waiting_inv [event] Blocked st st') as (_ & Hall' & ?);
          [|done|].
        - simpl. by rewrite Hstep, Hst'.
        - by inversion Hall'. }
      exists (event :: pre), ev, post, st1. simpl. rewrite Hstep, Hst'.
      split_and!; try done; [by constructor|congruence].
  - exists [], event, events, st. simpl. by rewrite Hstep.
  - exists [], event, events, st. simpl. by rewrite Hstep.
  - exists [], event, events, st. simpl. by rewrite Hstep.
Qed.

(** Either every event is passed over, or an event decides the watch
    and the way the stream stands is not read. *)
Lemma wait_loop_cases events ending st :
  w_stop st = false →
  Forall (unmatched expected_status) events
  ∨ (decided (run events Blocked st) = true
     ∧ run events ending st = run events Blocked st).
Proof.
  intros Hst. destruct (run events Blocked st) as [st'| |] eqn:Hrun.
  - left. by destruct (wait_loop_waiting_inv _ _ _ _ Hrun) as (_ & ? & _).
  - right. split; [done|]. rewrite <- Hrun. apply wait_loop_decided_ending.
    by rewrite Hrun.
  - right. split; [done|]. rewrite <- Hrun. apply wait_loop_decided_ending.
    by rewrite Hrun.
Qed.

(** What a single event does to a waiting, unstopped watch. *)
Lemma wait_loop_single event st :
  w_stop st = false →
  (unmatched expected_status event
   ∧ ∃ st', run [event] Blocked st = Waiting st' ∧ out st' = out st)
  ∨ (ev_type event = "DELETE"
     ∧ run [event] Blocked st
       = Returned PyNone
           (stop (print (deleted_msg name)
                    (set_ready_condition (Some "Deleted") st))))
  ∨ (ev_type event ≠ "DELETE" ∧ conditions (get_status event) = Some []
     ∧ run [event] Blocked st = Raised IndexError st)
  ∨ (∃ c cs n ip,
       ev_type event ≠ "DELETE" ∧ conditions (get_status event) = Some (c :: cs)
       ∧ match_condition c expected_status = Some "Ready"
       ∧ expected_status = "Ready"
       ∧ network (get_status event) = Some n ∧ externalIP n = Some ip
       ∧ run [event] Blocked st
         = Returned (IpDict ip)
             (stop (print (ready_msg name ip)
                      (set_ready_condition (Some "Ready") st))))
  ∨ (∃ c cs key,
       ev_type event ≠ "DELETE" ∧ conditions (get_status event) = Some (c :: cs)
       ∧ match_condition c expected_status = Some "Ready"
       ∧ expected_status = "Ready"
       ∧ (key = "network" ∨ key = "externalIP")
       ∧ run [event] Blocked st
         = Raised (KeyError key) (set_ready_condition (Some "Ready") st))
  ∨ (∃ c cs,
       ev_type event ≠ "DELETE" ∧ conditions (get_status event) = Some (c :: cs)
       ∧ match_condition c expected_status = Some expected_status
       ∧ (expected_status = "Stopped" ∨ expected_status = "Terminating")
       ∧ run [event] Blocked st
         = Returned PyNone
             (stop (print (but_is_msg name expected_status)
                      (set_ready_condition (Some expected_status) st)))).
Proof.
  intros Hst. simpl.
  destruct (loop_body_spec event st) as
    [Hty|Hty Hc|Hty Hc|c cs Hty Hc Hm|c cs n ip Hty Hc Hm He Hn Hip
    |c cs key Hty Hc Hm He Hk|c cs Hty Hc Hm He]; simpl; rewrite ?Hst.
  - right. left. done.
  - left. split; [split; [done|by rewrite Hc]|by eexists].
  - right. right. left. done.
  - left. split; [split; [done|by rewrite Hc]|by eexists].
  - do 3 right. left. by exists c, cs, n, ip.
  - do 4 right. left. exists c, cs, key. split_and!; try done.
    unfold status_external_ip in Hk.
    destruct (network (get_status event)) as [n|]; [|left; congruence].
    destruct (externalIP n); [done|right; congruence].
  - do 5 right. by exists c, cs.
Qed.

(** An event that is not passed over decides a waiting watch. *)
Lemma wait_loop_single_decides event st :
  w_stop st = false → ¬ unmatched expected_status event →
  decided (run [event] Blocked st) = true.
Proof.
  intros Hst Hun.
  destruct (wait_loop_single event st Hst)
    as [(? & _)|[(_ & ->)|[(_ & _ & ->)
       |[(c & cs & n & ip & _ & _ & _ & _ & _ & _ & ->)
       |[(c & cs & key & _ & _ & _ & _ & _ & ->)
       |(c & cs & _ & _ & _ & _ & ->)]]]]]; done.
Qed.

(** The output of a decided watch: at most one line after what was
    there, and exactly one with the stop flag set when it returned at an
    event. *)
Lemma wait_loop_decided_output events st :
  decided (run events Blocked st) = true → w_stop st = false →
  match run events Blocked st with
  | Returned _ st' => w_stop st' = true ∧ ∃ line, out st' = (out st ++ [Printed line])%list
  | Raised _ st' => w_stop st' = false ∧ out st' = out st
  | Waiting _ => False
  end.
Proof.
  intros Hdec Hst.
  destruct (wait_loop_first_decisive events st Hdec Hst)
    as (pre & event & post & st1 & -> & Hpre & _ & Hst1 & Hout & Hlast).
  rewrite <- Hlast in *.
  destruct (wait_loop_single event st1 Hst1)
    as [(_ & st' & Hr & _)|[(_ & Hr)|[(_ & _ & Hr)
       |[(c & cs & n & ip' & _ & _ & _ & _ & _ & _ & Hr)
       |[(c & cs & key & _ & _ & _ & _ & _ & Hr)
       |(c & cs & _ & _ & _ & _ & Hr)]]]]];
    rewrite Hr in *; simpl in *; rewrite ?Hout; try done;
    split; first [done | by eexists].
Qed.

End Watch.

(** C7. A condition matches a registered entry exactly when its type,
    status and reason are all present and equal to the entry's values: a
    difference in any one of them gives [None], and the entry's own dict
    always matches. *)
Theorem match_condition_iff_fields (condition : gmap string string)
    (name : string) (s : OutcomeSpec) :
  EXPECTED_CONDITIONS !! name = Some s →
  (match_condition condition name = Some name ↔ fields_equal condition s)
  ∧ (¬ fields_equal condition s → match_condition condition name = None)
  ∧ match_condition (spec_dict s) name = Some name.
Proof.
  intros Hs. split; [by apply match_condition_registered|]. split.
  - intros Hne. destruct (match_condition_cases condition name) as [|Hm]; [done|].
    by apply (match_condition_registered _ _ _ Hs) in Hm.
  - apply (match_condition_registered _ _ _ Hs), spec_dict_fields.
Qed.

Lemma match_condition_iff_fields_witness :
  EXPECTED_CONDITIONS !! "Stopped" = Some (mkSpec "VirtualServerStopped" "False" "Ready")
  ∧ match_condition (condition_of "Terminating") "Stopped" = None.
Proof.
  split; [reflexivity|].
  apply (match_condition_iff_fields (condition_of "Terminating") "Stopped"
           (mkSpec "VirtualServerStopped" "False" "Ready")); [reflexivity|].
  intros (_ & _ & H). vm_compute in H. discriminate H.
Defined.

(** C10. [match_condition] answers with the name it was asked about or
    with [None], never with another name. *)
Theorem match_condition_requested_or_none (condition : gmap string string)
    (expected_status : string) :
  match_condition condition expected_status = None
  ∨ match_condition condition expected_status = Some expected_status.
Proof. apply match_condition_cases. Qed.

(** ** The watch: what [ready] does on a stream of events *)

(** C2. The terminal states are absorbing and a watch resolves at most
    once.  An event that is not passed over (a deletion, a first condition
    that matches the requested outcome, Stopped and Terminating included,
    or an empty list of conditions) decides a waiting watch; once the
    watch is decided, the events that follow and the way the stream ends
    change nothing; and whatever the stream, the watch prints at most one
    line after the announcement, and none while it is waiting. *)
Theorem ready_resolves_once (namespace name expected_status : string)
    (progress : bool) (events : list Event) :
  let announced := out (initial_state namespace name expected_status progress) in
  (∀ st event,
     ready namespace name expected_status progress events Blocked = Waiting st →
     ¬ unmatched expected_status event →
     decided (ready namespace name expected_status progress (events ++ [event])
                Blocked) = true)
  ∧ (decided (ready namespace name expected_status progress events Blocked) = true →
     ∀ more ending,
       ready namespace name expected_status progress (events ++ more) ending
       = ready namespace name expected_status progress events Blocked)
  ∧ (∀ ending, ∃ lines,
       out (final_state (ready namespace name expected_status progress events ending))
       = (announced ++ lines)%list
       ∧ (length lines ≤ 1)%nat
       ∧ (decided (ready namespace name expected_status progress events ending)
          = false → lines = [])).
Proof.
  intros announced. subst announced. rewrite !ready_unfold.
  set (st0 := initial_state namespace name expected_status progress).
  split_and!.
  - intros st event Hw Hun. rewrite ready_unfold.
    rewrite (wait_loop_app_waiting _ _ _ _ _ _ _ Hw).
    apply wait_loop_single_decides; [|done].
    eapply wait_loop_waiting_not_stopped; [|exact Hw]. done.
  - intros Hdec more ending. rewrite ready_unfold.
    by apply wait_loop_app_decided.
  - intros ending. rewrite !ready_unfold. fold st0.
    destruct (wait_loop_cases name expected_status events ending st0 eq_refl)
      as [Hall|[Hdec Heq]].
    + destruct (wait_loop_passed_over name _ events ending st0 Hall eq_refl)
        as (st' & -> & _ & Hout).
      exists []. rewrite app_nil_r.
      destruct ending; simpl; (split_and!; [done|lia|done]).
    + rewrite Heq.
      pose proof (wait_loop_decided_output _ _ _ _ Hdec eq_refl) as Hout.
      destruct (wait_loop name expected_status events Blocked st0)
        as [st'|v st'|e st']; simpl in *; [done| |].
      * destruct Hout as (_ & line & ->). exists [Printed line]. simpl.
        split_and!; [done|lia|done].
      * destruct Hout as (_ & ->). exists []. simpl.
        split_and!; [done|lia|done].
Qed.

Lemma ready_resolves_once_witness :
  decided (ready "tenant" "vm" "Stopped" false
             ([no_status_event] ++ [stopped_event]) Blocked) = true
  ∧ ready "tenant" "vm" "Stopped" false
      ([no_status_event; stopped_event] ++ [stopped_event; deleted_event])
      Exhausted
    = ready "tenant" "vm" "Stopped" false [no_status_event; stopped_event] Blocked.
Proof.
  split.
  - apply (proj1 (ready_resolves_once "tenant" "vm" "Stopped" false [no_status_event])
             (initial_state "tenant" "vm" "Stopped" false) stopped_event).
    + reflexivity.
    + intros [_ H]. vm_compute in H. discriminate H.
  - apply (proj1 (proj2 (ready_resolves_once "tenant" "vm" "Stopped" false
                          [no_status_event; stopped_event]))).
    reflexivity.
Defined.

(** C3. An event that is no deletion and reports [conditions: []] makes
    the loop raise [IndexError] at [status['conditions'][0]]: the watch
    neither passes over the event nor keeps waiting. *)
Theorem ready_empty_conditions_raises (ending : StreamEnd) :
  ready "tenant" "vm" "Ready" false [event_with "ADDED" [] None] ending
  = Raised IndexError (initial_state "tenant" "vm" "Ready" false).
Proof. reflexivity. Qed.




(** C1. With Ready requested, an event whose first condition is exactly
    the Terminating entry is passed over: the watch is still waiting and
    has not resolved to Terminating, although lines 122-124 are there to
    report a server that is Stopped or Terminating. *)
Theorem ready_terminating_keeps_waiting :
  match_condition (condition_of "Terminating") "Terminating" = Some "Terminating"
  ∧ ready "tenant" "vm" "Ready" false [terminating_event] Blocked
    = Waiting (initial_state "tenant" "vm" "Ready" false)
  ∧ ¬ resolves_to (ready "tenant" "vm" "Ready" false [terminating_event] Blocked)
        "Terminating".
Proof.
  split; [reflexivity|]. split; [reflexivity|].
  intros (v & st & H & _). vm_compute in H. discriminate H.
Qed.

(** C5 as stated fails: a name that is not in the table raises nothing;
    the watch passes over a Ready event and goes on waiting. *)
Lemma ready_unknown_outcome_no_error :
  EXPECTED_CONDITIONS !! "Running" = None
  ∧ ready "tenant" "vm" "Running" false [ready_event "10.0.0.5"] Blocked
    = Waiting (initial_state "tenant" "vm" "Running" false)
  ∧ caller_view (ready "tenant" "vm" "Running" false [ready_event "10.0.0.5"]
                   Blocked) = None.
Proof. split; [reflexivity|]. split; reflexivity. Qed.

(** C5, amended. For a requested name that is not in the table,
    [match_condition] gives [None] for every condition and [ready] raises
    no error for it: through every stream of events that are no deletion
    and carry no empty condition list the watch stays waiting, with
    nothing printed. *)
Theorem ready_unknown_outcome_waits (namespace name expected_status : string)
    (progress : bool) (events : list Event) :
  EXPECTED_CONDITIONS !! expected_status = None →
  (∀ c, match_condition c expected_status = None)
  ∧ (Forall live events →
     ∃ st, ready namespace name expected_status progress events Blocked
           = Waiting st
       ∧ out st = out (initial_state namespace name expected_status progress)).
Proof.
  intros Hun. split; [intros c; by apply match_condition_unregistered|].
  intros Hlive. rewrite ready_unfold.
  destruct (wait_loop_unmatched name expected_status events
              (initial_state namespace name expected_status progress))
    as (st & Hrun & _ & Hout); [|done|by exists st].
  eapply Forall_impl; [exact Hlive|]. intros event [Hty Hc]. split; [done|].
  destruct (conditions (get_status event)) as [[|c cs]|]; [done| |done].
  by apply match_condition_unregistered.
Qed.

Lemma ready_unknown_outcome_waits_witness :
  EXPECTED_CONDITIONS !! "Running" = None
  ∧ (∀ c, match_condition c "Running" = None)
  ∧ ∃ st, ready "tenant" "vm" "Running" false [no_status_event; stopped_event]
            Blocked
          = Waiting st
      ∧ out st = out (initial_state "tenant" "vm" "Running" false).
Proof.
  split; [reflexivity|].
  destruct (ready_unknown_outcome_waits "tenant" "vm" "Running" false
              [no_status_event; stopped_event]) as [Hnone Hwait].
  - reflexivity.
  - split; [exact Hnone|]. apply Hwait.
    repeat constructor; simpl; discriminate.
Defined.

(** C6. A deletion is not surfaced as an outcome of its own.  The event
    that a cluster sends for a removed resource has the type ['DELETED'],
    which line 106 does not test for: the watch passes over it and is
    still waiting.  And on the type ['DELETE'] that line 106 does test
    for, the value ['Deleted'] stays in a local variable: the caller gets
    [None], as from a watch that ended on a Stopped condition, and
    [main.py] raises the same [ValueError] for both. *)
Theorem ready_deletion_not_surfaced :
  ready "tenant" "vm" "Ready" false [removed_event] Blocked
  = Waiting (initial_state "tenant" "vm" "Ready" false)
  ∧ resolves_to (ready "tenant" "vm" "Stopped" false [deleted_event] Blocked)
      "Deleted"
  ∧ resolves_to (ready "tenant" "vm" "Stopped" false [stopped_event] Blocked)
      "Stopped"
  ∧ caller_view (ready "tenant" "vm" "Stopped" false [deleted_event] Blocked)
    = caller_view (ready "tenant" "vm" "Stopped" false [stopped_event] Blocked)
  ∧ caller_view (ready "tenant" "vm" "Stopped" false [deleted_event] Blocked)
    = Some (inr PyNone)
  ∧ Main.ip_address PyNone = inl (ValueError Main.no_ip_msg).
Proof.
  split; [reflexivity|].
  split; [eexists _, _; split; reflexivity|].
  split; [eexists _, _; split; reflexivity|].
  split; [reflexivity|]. split; reflexivity.
Qed.

(** C8 as stated fails: on a stream that delivers no event and stays
    open the call has neither returned nor raised; there is no deadline
    to end it. *)
Lemma ready_silent_stream_never_returns :
  ready "tenant" "vm" "Ready" false [] Blocked
  = Waiting (initial_state "tenant" "vm" "Ready" false)
  ∧ decided (ready "tenant" "vm" "Ready" false [] Blocked) = false
  ∧ caller_view (ready "tenant" "vm" "Ready" false [] Blocked) = None.
Proof. split; [reflexivity|]. split; reflexivity. Qed.

(** C8, amended. [ready] has no deadline and no timed-out result.  When
    every event delivered is passed over (its type is not ['DELETE'] and
    it has no [conditions] key, or a non-empty list of conditions whose
    first does not match the requested outcome), the call ends only with
    the stream: while the stream is blocked the call stays suspended and
    returns nothing, in particular on a stream that delivers no event;
    when the stream is exhausted the call returns [None]; when the stream
    raises, its exception leaves the call. *)
Theorem ready_waits_without_deadline (namespace name expected_status : string)
    (progress : bool) (events : list Event) :
  Forall (unmatched expected_status) events →
  (decided (ready namespace name expected_status progress events Blocked) = false
   ∧ caller_view (ready namespace name expected_status progress events Blocked)
     = None)
  ∧ caller_view (ready namespace name expected_status progress events Exhausted)
    = Some (inr PyNone)
  ∧ (∀ e, caller_view
            (ready namespace name expected_status progress events (Broken e))
          = Some (inl e)).
Proof.
  intros Hall. rewrite !ready_unfold.
  set (st0 := initial_state namespace name expected_status progress).
  split_and!.
  - by destruct (wait_loop_passed_over name _ events Blocked st0 Hall eq_refl)
      as (st & -> & _).
  - by destruct (wait_loop_passed_over name _ events Blocked st0 Hall eq_refl)
      as (st & -> & _).
  - by destruct (wait_loop_passed_over name _ events Exhausted st0 Hall eq_refl)
      as (st & -> & _).
  - intros e. rewrite ready_unfold. fold st0.
    by destruct (wait_loop_passed_over name _ events (Broken e) st0 Hall eq_refl)
      as (st & -> & _).
Qed.

Lemma ready_waits_without_deadline_witness :
  Forall (unmatched "Ready") [no_status_event; terminating_event]
  ∧ (decided (ready "tenant" "vm" "Ready" false [no_status_event; terminating_event]
                Blocked) = false
     ∧ caller_view (ready "tenant" "vm" "Ready" false
                      [no_status_event; terminating_event] Blocked) = None)
  ∧ caller_view (ready "tenant" "vm" "Ready" false
                   [no_status_event; terminating_event] Exhausted)
    = Some (inr PyNone)
  ∧ (∀ e, caller_view (ready "tenant" "vm" "Ready" false
                         [no_status_event; terminating_event] (Broken e))
          = Some (inl e)).
Proof.
  assert (Forall (unmatched "Ready") [no_status_event; terminating_event]) as H.
  { repeat constructor; simpl; discriminate. }
  split; [exact H|].
  exact (ready_waits_without_deadline "tenant" "vm" "Ready" false
           [no_status_event; terminating_event] H).
Defined.

(** ** [create] *)

(** C9. A manifest whose [metadata.name] or [metadata.namespace] is
    missing or empty is rejected by [create] with an exception of its
    checks before any call reaches the cluster; with both present and
    non-empty [create] makes the one call, for that namespace, and what it
    returns or raises is the cluster's answer. *)
Theorem create_requires_identity {Obj : Type} (api : ApiCall → nat + Obj)
    (manifest : Manifest) (calls : list ApiCall) :
  (missing_or_empty (identity_field manifest "name")
   ∨ missing_or_empty (identity_field manifest "namespace") →
   ∃ e, create api manifest calls = (inl e, calls) ∧ invalid_manifest e)
  ∧ (∀ namespace name,
       identity_field manifest "namespace" = Some namespace → namespace ≠ "" →
       identity_field manifest "name" = Some name → name ≠ "" →
       let call := mkApiCall GROUP VERSION namespace PLURAL manifest in
       create api manifest calls = (api_result (api call), (calls ++ [call])%list)
       ∧ ∀ e, (create api manifest calls).1 = inl e → ¬ invalid_manifest e).
Proof.
  unfold identity_field, missing_or_empty, create, subscript.
  destruct (metadata manifest) as [md|]; simpl.
  - split.
    + intros Hbad. case_bool_decide; [by eexists|].
      destruct (md !! "namespace") as [namespace|]; [|by eexists].
      destruct (md !! "name") as [name|]; [|by eexists].
      assert (namespace = "" ∨ name = "") as Hempty.
      { destruct Hbad as [[?|[= ->]]|[?|[= ->]]]; try done; auto. }
      rewrite (proj2 (orb_true_iff _ _)); [by eexists|].
      rewrite !bool_decide_eq_true. tauto.
    + intros namespace name Hn Hns Hm Hname.
      case_bool_decide as Hmd; [by rewrite Hmd, lookup_empty in Hn|].
      rewrite Hn, Hm, !bool_decide_eq_false_2 by done. simpl. split; [done|].
      intros e. destruct (api _); simpl; [|done]. intros [= <-]. simpl. tauto.
  - split; [by eexists|]. by intros ? ? [=].
Qed.

Lemma create_requires_identity_witness :
  let api := (λ call, inr (call_namespace call)) : ApiCall → nat + string in
  let blank := mkManifest (Some {["namespace" := "tenant"; "name" := ""]}) [] in
  let good := mkManifest (Some {["namespace" := "tenant"; "name" := "vm"]}) [] in
  (∃ e, create api blank [] = (inl e, []) ∧ invalid_manifest e)
  ∧ create api good []
    = (inr "tenant", [mkApiCall GROUP VERSION "tenant" PLURAL good]).
Proof.
  intros api blank good. split.
  - apply (create_requires_identity api blank []).
    left. right. reflexivity.
  - destruct (proj2 (create_requires_identity api good []) "tenant" "vm")
      as [Hcall _];
      [reflexivity | discriminate | reflexivity | discriminate | exact Hcall].
Defined.

(** ** More on the watch *)

Lemma ready_view_ip (namespace name expected_status : string)
    (progress : bool) (events : list Event) (ending : StreamEnd) (ip : string) :
  caller_view (ready namespace name expected_status progress events ending)
  = Some (inr (IpDict ip))
  ↔ expected_status = "Ready" ∧ ready_decides events ip.
Proof.
  rewrite ready_unfold.
  set (st0 := initial_state namespace name expected_status progress).
  split.
  - intros Hview.
    destruct (wait_loop_cases name expected_status events ending st0 eq_refl)
      as [Hall|[Hdec Heq]].
    { destruct (wait_loop_passed_over name _ events ending st0 Hall eq_refl)
        as (st' & Hrun & _).
      rewrite Hrun in Hview. by destruct ending. }
    rewrite Heq in Hview.
    destruct (wait_loop_first_decisive name expected_status events st0 Hdec)
      as (pre & event & post & st1 & -> & Hpre & _ & Hst1 & _ & Hlast); [done|].
    rewrite <- Hlast in Hview.
    destruct (wait_loop_single name expected_status event st1 Hst1)
      as [(_ & st' & Hr & _)|[(_ & Hr)|[(_ & _ & Hr)
         |[(c & cs & n & ip' & Hty & Hc & Hm & He & Hn & Hip & Hr)
         |[(c & cs & key & _ & _ & _ & _ & _ & Hr)
         |(c & cs & _ & _ & _ & _ & Hr)]]]]];
      rewrite Hr in Hview; simpl in Hview; try done.
    injection Hview as <-. split; [done|]. rewrite He in *.
    exists pre, event, post, c, cs, n. split_and!; try done.
    by apply match_condition_ready_fields.
  - intros (-> & pre & event & post & c & cs & n & -> & Hpre & Hty & Hc & Hf & Hn & Hip).
    destruct (wait_loop_unmatched name "Ready" pre st0 Hpre) as (st1 & Hrun & _);
      [done|].
    rewrite (wait_loop_app_waiting _ _ _ _ _ _ _ Hrun). simpl.
    apply match_condition_ready_fields in Hf.
    unfold loop_body. rewrite bool_decide_eq_false_2 by done.
    rewrite Hc, Hf. simpl. unfold status_external_ip. by rewrite Hn, Hip.
Qed.

(** A stream whose events are all passed over has no deletion that
    decides. *)
Lemma unmatched_no_delete (expected_status : string) (events : list Event) :
  Forall (unmatched expected_status) events →
  ¬ delete_decides expected_status events.
Proof.
  intros Hall (pre & event & post & -> & _ & Hty).
  apply Forall_app in Hall as [_ Hall]. inversion Hall as [|? ? [Hne _] _]; subst.
  done.
Qed.

Lemma ready_view_none (namespace name : string)
    (progress : bool) (events : list Event) (ending : StreamEnd) :
  caller_view (ready namespace name "Ready" progress events ending)
  = Some (inr PyNone)
  ↔ delete_decides "Ready" events
    ∨ (ending = Exhausted ∧ Forall (unmatched "Ready") events).
Proof.
  rewrite ready_unfold.
  set (st0 := initial_state namespace name "Ready" progress).
  split.
  - intros Hview.
    destruct (wait_loop_cases name "Ready" events ending st0 eq_refl)
      as [Hall|[Hdec Heq]].
    { destruct (wait_loop_passed_over name _ events ending st0 Hall eq_refl)
        as (st' & Hrun & _).
      rewrite Hrun in Hview. destruct ending; try done. by right. }
    rewrite Heq in Hview. left.
    destruct (wait_loop_first_decisive name "Ready" events st0 Hdec)
      as (pre & event & post & st1 & -> & Hpre & _ & Hst1 & _ & Hlast); [done|].
    rewrite <- Hlast in Hview.
    destruct (wait_loop_single name "Ready" event st1 Hst1)
      as [(_ & st' & Hr & _)|[(Hty & Hr)|[(_ & _ & Hr)
         |[(c & cs & n & ip' & _ & _ & _ & _ & _ & _ & Hr)
         |[(c & cs & key & _ & _ & _ & _ & _ & Hr)
         |(c & cs & _ & _ & _ & [?|?] & Hr)]]]]];
      rewrite ?Hr in Hview; simpl in Hview; try done.
    by exists pre, event, post.
  - intros [(pre & event & post & -> & Hpre & Hty)|[-> Hall]].
    + destruct (wait_loop_unmatched name "Ready" pre st0 Hpre) as (st1 & Hrun & _);
        [done|].
      rewrite (wait_loop_app_waiting _ _ _ _ _ _ _ Hrun). simpl.
      by rewrite loop_body_delete.
    + by destruct (wait_loop_passed_over name _ events Exhausted st0 Hall eq_refl)
        as (st' & -> & _).
Qed.

(** An exception that the loop body does not raise leaves [ready] only
    as the exception of the stream, after events that are all passed
    over. *)
Lemma ready_view_stream_exception (namespace name expected_status : string)
    (progress : bool) (events : list Event) (ending : StreamEnd) (e : exn) :
  e ≠ IndexError → (∀ key, e ≠ KeyError key) →
  caller_view (ready namespace name expected_status progress events ending)
  = Some (inl e)
  ↔ ending = Broken e ∧ Forall (unmatched expected_status) events.
Proof.
  intros Hindex Hkey. rewrite ready_unfold.
  set (st0 := initial_state namespace name expected_status progress).
  split.
  - intros Hview.
    destruct (wait_loop_cases name expected_status events ending st0 eq_refl)
      as [Hall|[Hdec Heq]].
    { destruct (wait_loop_passed_over name _ events ending st0 Hall eq_refl)
        as (st' & Hrun & _).
      rewrite Hrun in Hview. destruct ending; try done.
      simpl in Hview. split; [congruence|done]. }
    rewrite Heq in Hview.
    destruct (wait_loop_first_decisive name expected_status events st0 Hdec)
      as (pre & event & post & st1 & -> & Hpre & _ & Hst1 & _ & Hlast); [done|].
    rewrite <- Hlast in Hview.
    destruct (wait_loop_single name expected_status event st1 Hst1)
      as [(_ & st' & Hr & _)|[(_ & Hr)|[(_ & _ & Hr)
         |[(c & cs & n & ip' & _ & _ & _ & _ & _ & _ & Hr)
         |[(c & cs & key & _ & _ & _ & _ & _ & Hr)
         |(c & cs & _ & _ & _ & _ & Hr)]]]]];
      rewrite Hr in Hview; simpl in Hview; try done.
    + by injection Hview as <-.
    + injection Hview as <-. by destruct (Hkey key).
  - intros [-> Hall].
    by destruct (wait_loop_passed_over name _ events (Broken e) st0 Hall eq_refl)
      as (st' & -> & _).
Qed.

(** X1. [ready] hands back the dict [{'ip': ip}] exactly when Ready was
    requested and a Ready event with that address decides the watch: the
    events before it are passed over, it is no deletion, its first
    condition has the three values of the Ready entry, and its status has
    [network.externalIP = ip].  The way the stream ends plays no part. *)
Theorem ready_returns_ip_iff (namespace name expected_status : string)
    (progress : bool) (events : list Event) (ending : StreamEnd) (ip : string) :
  caller_view (ready namespace name expected_status progress events ending)
  = Some (inr (IpDict ip))
  ↔ expected_status = "Ready" ∧ ready_decides events ip.
Proof. apply ready_view_ip. Qed.

(** X2. With Ready requested, [ready] returns [None] in exactly two
    cases: an event of type ['DELETE'] decides the watch, the events
    before it being passed over; or every event is passed over and the
    stream is exhausted.  The branch for Stopped and Terminating is never
    the cause. *)
Theorem ready_for_ready_returns_none_iff (namespace name : string)
    (progress : bool) (events : list Event) (ending : StreamEnd) :
  caller_view (ready namespace name "Ready" progress events ending)
  = Some (inr PyNone)
  ↔ delete_decides "Ready" events
    ∨ (ending = Exhausted ∧ Forall (unmatched "Ready") events).
Proof. apply ready_view_none. Qed.

(** X4. A return of [ready] at an event has called [w.stop()] and printed
    exactly one line after the announcement.  The one return without
    [w.stop()] is that on an exhausted stream whose events were all passed
    over, and it prints nothing.  A watch that is waiting or that raised
    has not called [w.stop()] and has printed nothing more. *)
Theorem ready_stop_and_output (namespace name expected_status : string)
    (progress : bool) (events : list Event) (ending : StreamEnd) :
  let announced := out (initial_state namespace name expected_status progress) in
  match ready namespace name expected_status progress events ending with
  | Returned _ st =>
      (w_stop st = true ∧ ∃ line, out st = (announced ++ [Printed line])%list)
      ∨ (ending = Exhausted ∧ Forall (unmatched expected_status) events
         ∧ w_stop st = false ∧ out st = announced)
  | Waiting st | Raised _ st => w_stop st = false ∧ out st = announced
  end.
Proof.
  rewrite ready_unfold.
  set (st0 := initial_state namespace name expected_status progress).
  intros announced.
  destruct (wait_loop_cases name expected_status events ending st0 eq_refl)
    as [Hall|[Hdec Heq]].
  - destruct (wait_loop_passed_over name _ events ending st0 Hall eq_refl)
      as (st' & -> & Hst' & Hout).
    destruct ending; simpl; auto.
  - rewrite Heq.
    pose proof (wait_loop_decided_output _ _ _ _ Hdec eq_refl) as Hout.
    destruct (wait_loop name expected_status events Blocked st0)
      as [st'|v st'|e st']; simpl in *; [done|by left|done].
Qed.

Lemma loop_body_head_view (name expected_status : string) (event event' : Event)
    (st : WaitState) :
  head_view event = head_view event' →
  loop_body name expected_status event st
  = loop_body name expected_status event' st.
Proof.
  unfold head_view. intros [= Hty Hc Hn].
  unfold loop_body, status_external_ip. rewrite Hty, Hn.
  destruct (conditions (get_status event)) as [[|c cs]|],
    (conditions (get_status event')) as [[|c' cs']|]; by simplify_eq/=.
Qed.

(** X6. Of each event [ready] reads the type, the first condition and the
    network only: two streams whose events agree on these give the same
    outcome, whatever further conditions the events carry. *)
Theorem ready_reads_first_condition_only (namespace name expected_status : string)
    (progress : bool) (events events' : list Event) (ending : StreamEnd) :
  head_view <$> events = head_view <$> events' →
  ready namespace name expected_status progress events ending
  = ready namespace name expected_status progress events' ending.
Proof.
  rewrite !ready_unfold.
  generalize (initial_state namespace name expected_status progress).
  revert events'. induction events as [|event events IH];
    intros [|event' events'] st Heq; try done.
  injection Heq as Hty Hc Hn Hrest.
  assert (head_view event = head_view event') as Hev
    by (unfold head_view; congruence).
  simpl. rewrite (loop_body_head_view _ _ _ _ _ Hev).
  destruct (loop_body _ _ event' st); try done.
  destruct (w_stop _); [done|]. by apply IH.
Qed.

Lemma ready_reads_first_condition_only_witness :
  ready "tenant" "vm" "Ready" false
    [event_with "MODIFIED" [condition_of "Stopped"; condition_of "Ready"]
       (Some (mkNetwork (Some "10.0.0.5")))] Blocked
  = ready "tenant" "vm" "Ready" false
      [event_with "MODIFIED" [condition_of "Stopped"]
         (Some (mkNetwork (Some "10.0.0.5")))] Blocked.
Proof.
  apply (ready_reads_first_condition_only "tenant" "vm" "Ready" false
           [event_with "MODIFIED" [condition_of "Stopped"; condition_of "Ready"]
              (Some (mkNetwork (Some "10.0.0.5")))]
           [event_with "MODIFIED" [condition_of "Stopped"]
              (Some (mkNetwork (Some "10.0.0.5")))] Blocked).
  reflexivity.
Defined.

(** ** More on [match_condition] *)

(** X7. Only the keys [reason], [status] and [type] of a condition count:
    adding or changing any other key (a message, a transition time)
    changes no answer of [match_condition]. *)
Theorem match_condition_ignores_other_keys (condition : gmap string string)
    (k v expected_status : string) :
  k ≠ "reason" → k ≠ "status" → k ≠ "type" →
  match_condition (<[k := v]> condition) expected_status
  = match_condition condition expected_status.
Proof.
  intros Hr Hs Ht. unfold match_condition, key_agrees.
  by rewrite !lookup_insert_ne.
Qed.

Lemma match_condition_ignores_other_keys_witness :
  match_condition (<["message" := "started"]> (condition_of "Ready")) "Ready"
  = match_condition (condition_of "Ready") "Ready".
Proof.
  apply (match_condition_ignores_other_keys (condition_of "Ready")
           "message" "started" "Ready"); discriminate.
Defined.

(** X8. No condition is identified as two outcomes: for two different
    names, [match_condition] answers [None] for at least one of them. *)
Theorem match_condition_at_most_one_outcome (condition : gmap string string)
    (a b : string) :
  a ≠ b →
  match_condition condition a = None ∨ match_condition condition b = None.
Proof.
  intros Hne.
  destruct (match_condition_cases condition a) as [|Ha]; [by left|].
  destruct (match_condition_cases condition b) as [|Hb]; [by right|].
  by destruct Hne; eapply match_condition_exclusive.
Qed.

Lemma match_condition_at_most_one_outcome_witness :
  match_condition (condition_of "Stopped") "Stopped" = None
  ∨ match_condition (condition_of "Stopped") "Terminating" = None.
Proof.
  apply (match_condition_at_most_one_outcome (condition_of "Stopped")
           "Stopped" "Terminating").
  discriminate.
Defined.

(** ** [update] *)

(** X9. [update] makes the checks of [create]: a manifest whose name or
    namespace is missing or empty is rejected before any call reaches the
    cluster; with both present and non-empty [update] makes the one
    replace call, for that namespace and that name, and what it returns
    or raises is the cluster's answer. *)
Theorem update_requires_identity {Obj : Type} (api : ReplaceCall → nat + Obj)
    (manifest : Manifest) (calls : list ReplaceCall) :
  (missing_or_empty (identity_field manifest "name")
   ∨ missing_or_empty (identity_field manifest "namespace") →
   ∃ e, update api manifest calls = (inl e, calls) ∧ invalid_manifest e)
  ∧ (∀ namespace name,
       identity_field manifest "namespace" = Some namespace → namespace ≠ "" →
       identity_field manifest "name" = Some name → name ≠ "" →
       let call := mkReplaceCall GROUP VERSION namespace PLURAL name manifest in
       update api manifest calls = (api_result (api call), (calls ++ [call])%list)).
Proof.
  unfold identity_field, missing_or_empty, update, subscript.
  destruct (metadata manifest) as [md|]; simpl.
  - split.
    + intros Hbad. case_bool_decide; [by eexists|].
      destruct (md !! "namespace") as [namespace|]; [|by eexists].
      destruct (md !! "name") as [name|]; [|by eexists].
      assert (namespace = "" ∨ name = "") as Hempty.
      { destruct Hbad as [[?|[= ->]]|[?|[= ->]]]; try done; auto. }
      rewrite (proj2 (orb_true_iff _ _)); [by eexists|].
      rewrite !bool_decide_eq_true. tauto.
    + intros namespace name Hn Hns Hm Hname.
      case_bool_decide as Hmd; [by rewrite Hmd, lookup_empty in Hn|].
      by rewrite Hn, Hm, !bool_decide_eq_false_2 by done.
  - split; [by eexists|]. by intros ? ? [=].
Qed.

Lemma update_requires_identity_witness :
  let api := (λ call, inr (replace_name call)) : ReplaceCall → nat + string in
  let blank := mkManifest (Some {["namespace" := ""; "name" := "vm"]}) [] in
  let good := mkManifest (Some {["namespace" := "tenant"; "name" := "vm"]}) [] in
  (∃ e, update api blank [] = (inl e, []) ∧ invalid_manifest e)
  ∧ update api good []
    = (inr "vm", [mkReplaceCall GROUP VERSION "tenant" PLURAL "vm" good]).
Proof.
  intros api blank good. split.
  - apply (update_requires_identity api blank []).
    right. right. reflexivity.
  - apply (proj2 (update_requires_identity api good []) "tenant" "vm");
      [reflexivity | discriminate | reflexivity | discriminate].
Defined.

(** X10. [create] and [update] accept the same manifests.  Either both
    reject the manifest, with exceptions of the same class and no call, or
    both make their call for the namespace in the manifest. *)
Theorem create_update_agree {Obj Obj' : Type} (api : ApiCall → nat + Obj)
    (api' : ReplaceCall → nat + Obj') (manifest : Manifest)
    (calls : list ApiCall) (calls' : list ReplaceCall) :
  (∃ e e', create api manifest calls = (inl e, calls)
     ∧ update api' manifest calls' = (inl e', calls')
     ∧ same_class e e' ∧ invalid_manifest e)
  ∨ (∃ call call',
       create api manifest calls = (api_result (api call), (calls ++ [call])%list)
       ∧ update api' manifest calls' = (api_result (api' call'), (calls' ++ [call'])%list)
       ∧ call_namespace call = replace_namespace call'
       ∧ identity_field manifest "namespace" = Some (call_namespace call)
       ∧ identity_field manifest "name" = Some (replace_name call')
       ∧ call_body call = manifest ∧ replace_body call' = manifest).
Proof.
  unfold identity_field, create, update, subscript.
  destruct (metadata manifest) as [md|]; simpl;
    [|left; by eexists _, _].
  case_bool_decide; [left; by eexists _, _|].
  destruct (md !! "namespace") as [namespace|]; [|left; by eexists _, _].
  destruct (md !! "name") as [name|]; [|left; by eexists _, _].
  destruct (_ || _); [left; by eexists _, _|].
  right. by eexists _, _.
Qed.

(** ** [get_manifest] *)

Section TemplateFacts.

Variable lower : string → string.
Variables (name namespace : string) (users : list (gmap string string))
  (region : string) (network_config : NetworkConfig) (n_cpu n_gpu : Z)
  (cpu_type gpu_type : option string) (memory disk_size : string)
  (storage_source : option (gmap string (gmap string string))).

Local Abbreviation built :=
  (get_manifest lower name namespace users region network_config n_cpu n_gpu
     cpu_type gpu_type memory disk_size storage_source).

Lemma get_manifest_cases :
  (str_truthy cpu_type = true
   ∧ ∃ m, built = inr m
       ∧ res_cpu (vs_resources (vs_spec m)) = mkCpu n_cpu cpu_type
       ∧ res_gpu (vs_resources (vs_spec m))
         = (if bool_decide (0 < n_gpu)%Z then Some (mkGpu n_gpu None) else None)
       ∧ vs_metadata m = {["name" := name; "namespace" := namespace]})
  ∨ (str_truthy cpu_type = false ∧ str_truthy gpu_type = true
     ∧ (0 < n_gpu)%Z
     ∧ ∃ m, built = inr m
         ∧ res_cpu (vs_resources (vs_spec m)) = mkCpu n_cpu None
         ∧ res_gpu (vs_resources (vs_spec m)) = Some (mkGpu n_gpu gpu_type)
         ∧ vs_metadata m = {["name" := name; "namespace" := namespace]})
  ∨ (str_truthy cpu_type = false ∧ str_truthy gpu_type = true
     ∧ (n_gpu ≤ 0)%Z ∧ built = inl (KeyError "gpu"))
  ∨ (str_truthy cpu_type = false ∧ str_truthy gpu_type = false
     ∧ ∃ m, built = inr m
         ∧ res_cpu (vs_resources (vs_spec m)) = mkCpu n_cpu None
         ∧ res_gpu (vs_resources (vs_spec m))
           = (if bool_decide (0 < n_gpu)%Z then Some (mkGpu n_gpu None) else None)
         ∧ vs_metadata m = {["name" := name; "namespace" := namespace]}).
Proof.
  unfold get_manifest.
  destruct (str_truthy cpu_type) eqn:Hc; [left; split; [done|]; by eexists|].
  right. destruct (str_truthy gpu_type) eqn:Hg.
  - case_bool_decide as Hn.
    + left. split_and!; try done. by eexists.
    + right. left. split_and!; try done. lia.
  - do 2 right. split_and!; try done. by eexists.
Qed.

End TemplateFacts.

(** X11. [get_manifest] raises exactly when a GPU type is given for a
    machine without GPUs: [n_gpu] is not positive, [cpu_type] is falsy and
    [gpu_type] is truthy; the exception is [KeyError] for the key [gpu].
    In every other case it returns a manifest. *)
Theorem get_manifest_raises_iff (lower : string → string)
    (name namespace : string) (users : list (gmap string string))
    (region : string) (network_config : NetworkConfig) (n_cpu n_gpu : Z)
    (cpu_type gpu_type : option string) (memory disk_size : string)
    (storage_source : option (gmap string (gmap string string))) :
  let result := get_manifest lower name namespace users region network_config
                  n_cpu n_gpu cpu_type gpu_type memory disk_size storage_source in
  (result = inl (KeyError "gpu")
   ↔ (n_gpu ≤ 0)%Z ∧ str_truthy cpu_type = false ∧ str_truthy gpu_type = true)
  ∧ (∀ e, result = inl e → e = KeyError "gpu").
Proof.
  intros result. subst result.
  destruct (get_manifest_cases lower name namespace users region network_config
              n_cpu n_gpu cpu_type gpu_type memory disk_size storage_source)
    as [(Hc & m & -> & _)|[(Hc & Hg & Hn & m & -> & _)|[(Hc & Hg & Hn & ->)
       |(Hc & Hg & m & -> & _)]]].
  - split; [|done]. split; [done|]. intros (_ & ? & _). congruence.
  - split; [|done]. split; [done|]. intros (? & _). lia.
  - split; [done|]. by intros e [= <-].
  - split; [|done]. split; [done|]. intros (_ & _ & ?). congruence.
Qed.

(** X12. A manifest from [get_manifest] never has a type under both [cpu]
    and [gpu]: a truthy [cpu_type] is written under [cpu] and [gpu_type] is
    then dropped; [gpu_type] is written under [gpu] only when [cpu_type] is
    falsy. *)
Theorem get_manifest_one_type (lower : string → string)
    (name namespace : string) (users : list (gmap string string))
    (region : string) (network_config : NetworkConfig) (n_cpu n_gpu : Z)
    (cpu_type gpu_type : option string) (memory disk_size : string)
    (storage_source : option (gmap string (gmap string string)))
    (m : VirtualServerManifest) :
  get_manifest lower name namespace users region network_config
    n_cpu n_gpu cpu_type gpu_type memory disk_size storage_source = inr m →
  let cpu_kind_set := cpu_kind (res_cpu (vs_resources (vs_spec m))) in
  let gpu_kind_set := res_gpu (vs_resources (vs_spec m)) ≫= gpu_kind in
  (cpu_kind_set = None ∨ gpu_kind_set = None)
  ∧ (str_truthy cpu_type = true → cpu_kind_set = cpu_type ∧ gpu_kind_set = None)
  ∧ (str_truthy cpu_type = false → cpu_kind_set = None
     ∧ gpu_kind_set = if str_truthy gpu_type then gpu_type else None).
Proof.
  intros Hm.
  destruct (get_manifest_cases lower name namespace users region network_config
              n_cpu n_gpu cpu_type gpu_type memory disk_size storage_source)
    as [(Hc & m' & Hm' & Hcpu & Hgpu & _)|[(Hc & Hg & Hn & m' & Hm' & Hcpu & Hgpu & _)
       |[(Hc & Hg & Hn & Hm')|(Hc & Hg & m' & Hm' & Hcpu & Hgpu & _)]]];
    rewrite Hm' in Hm; simplify_eq; simpl; rewrite Hcpu, Hgpu, Hc, ?Hg; simpl.
  - assert ((if bool_decide (0 < n_gpu)%Z then Some (mkGpu n_gpu None) else None)
            ≫= gpu_kind = None) as -> by (by case_bool_decide).
    split_and!; intros; try done; auto.
  - split_and!; intros; try done; auto.
  - assert ((if bool_decide (0 < n_gpu)%Z then Some (mkGpu n_gpu None) else None)
            ≫= gpu_kind = None) as -> by (by case_bool_decide).
    split_and!; intros; try done; auto.
Qed.

Lemma get_manifest_one_type_witness :
  let m := mkVirtualServerManifest (GROUP ++ "/" ++ VERSION) "VirtualServer"
             {["name" := "vm"; "namespace" := "tenant"]}
             (mkVirtualServerSpec "ORD1" "linux"
                (mkResources (mkCpu 4 (Some "amd-epyc-milan"))
                   (Some (mkGpu 1 None)) "32Gi")
                (mkRootStorage "ReadWriteOnce" "300Gi" "block-nvme-ORD1"
                   default_storage_source))
             default_network_config [] empty_cloud_init "RerunOnFailure" true in
  cpu_kind (res_cpu (vs_resources (vs_spec m))) = Some "amd-epyc-milan"
  ∧ res_gpu (vs_resources (vs_spec m)) ≫= gpu_kind = None.
Proof.
  intros m.
  apply (get_manifest_one_type (λ s, s) "vm" "tenant" [] "ORD1"
           default_network_config 4 1 (Some "amd-epyc-milan") (Some "A40")
           "32Gi" "300Gi" None m); reflexivity.
Defined.

(** X13. In a manifest from [get_manifest] the key [gpu] is there exactly
    when [n_gpu] is positive, and then with the count [n_gpu]; the count
    under [cpu] is [n_cpu]. *)
Theorem get_manifest_gpu_section (lower : string → string)
    (name namespace : string) (users : list (gmap string string))
    (region : string) (network_config : NetworkConfig) (n_cpu n_gpu : Z)
    (cpu_type gpu_type : option string) (memory disk_size : string)
    (storage_source : option (gmap string (gmap string string)))
    (m : VirtualServerManifest) :
  get_manifest lower name namespace users region network_config
    n_cpu n_gpu cpu_type gpu_type memory disk_size storage_source = inr m →
  (is_Some (res_gpu (vs_resources (vs_spec m))) ↔ (0 < n_gpu)%Z)
  ∧ (∀ g, res_gpu (vs_resources (vs_spec m)) = Some g → gpu_count g = n_gpu)
  ∧ cpu_count (res_cpu (vs_resources (vs_spec m))) = n_cpu.
Proof.
  intros Hm.
  destruct (get_manifest_cases lower name namespace users region network_config
              n_cpu n_gpu cpu_type gpu_type memory disk_size storage_source)
    as [(Hc & m' & Hm' & Hcpu & Hgpu & _)|[(Hc & Hg & Hn & m' & Hm' & Hcpu & Hgpu & _)
       |[(Hc & Hg & Hn & Hm')|(Hc & Hg & m' & Hm' & Hcpu & Hgpu & _)]]];
    rewrite Hm' in Hm; simplify_eq; rewrite Hcpu, Hgpu; simpl.
  all: try case_bool_decide.
  all: split_and!;
    [ split; [first [by intros [? [=]] | done] | first [done | by eexists]]
    | by intros g ?; simplify_eq
    | done ].
Qed.

Lemma get_manifest_gpu_section_witness :
  let m := mkVirtualServerManifest (GROUP ++ "/" ++ VERSION) "VirtualServer"
             {["name" := "vm"; "namespace" := "tenant"]}
             (mkVirtualServerSpec "ORD1" "linux"
                (mkResources (mkCpu 4 None) None "32Gi")
                (mkRootStorage "ReadWriteOnce" "300Gi" "block-nvme-ORD1"
                   default_storage_source))
             default_network_config [] empty_cloud_init "RerunOnFailure" true in
  (is_Some (res_gpu (vs_resources (vs_spec m))) ↔ (0 < 0)%Z)
  ∧ (∀ g, res_gpu (vs_resources (vs_spec m)) = Some g → gpu_count g = 0%Z)
  ∧ cpu_count (res_cpu (vs_resources (vs_spec m))) = 4%Z.
Proof.
  intros m.
  apply (get_manifest_gpu_section (λ s, s) "vm" "tenant" [] "ORD1"
           default_network_config 4 0 None None "32Gi" "300Gi" None m).
  reflexivity.
Defined.

(** X14. [get_manifest] does not check the identity it is given: the
    metadata of its manifest has exactly the keys [name] and [namespace]
    with the arguments, so [create] on a manifest with that metadata calls
    the cluster for [namespace] when both are non-empty and raises its
    [ValueError] when one is empty, never a [KeyError] or [TypeError]. *)
Theorem get_manifest_then_create {Obj : Type} (lower : string → string)
    (api : ApiCall → nat + Obj)
    (name namespace : string) (users : list (gmap string string))
    (region : string) (network_config : NetworkConfig) (n_cpu n_gpu : Z)
    (cpu_type gpu_type : option string) (memory disk_size : string)
    (storage_source : option (gmap string (gmap string string)))
    (m : VirtualServerManifest) (manifest : Manifest) (calls : list ApiCall) :
  get_manifest lower name namespace users region network_config
    n_cpu n_gpu cpu_type gpu_type memory disk_size storage_source = inr m →
  metadata manifest = Some (vs_metadata m) →
  create api manifest calls
  = if bool_decide (namespace = "") || bool_decide (name = "")
    then (inl (ValueError identity_required_msg), calls)
    else let call := mkApiCall GROUP VERSION namespace PLURAL manifest in
         (api_result (api call), (calls ++ [call])%list).
Proof.
  intros Hm Hmd.
  assert (vs_metadata m = {["name" := name; "namespace" := namespace]}) as Hmeta.
  { destruct (get_manifest_cases lower name namespace users region network_config
                n_cpu n_gpu cpu_type gpu_type memory disk_size storage_source)
      as [(_ & m' & Hm' & _ & _ & ?)|[(_ & _ & _ & m' & Hm' & _ & _ & ?)
         |[(_ & _ & _ & Hm')|(_ & _ & m' & Hm' & _ & _ & ?)]]];
      rewrite Hm' in Hm; by simplify_eq. }
  unfold create, subscript. rewrite Hmd, Hmeta.
  rewrite bool_decide_eq_false_2.
  - by simplify_map_eq.
  - intros Hempty. apply (f_equal (.!! "name")) in Hempty. by simplify_map_eq.
Qed.

Lemma get_manifest_then_create_witness :
  let api := (λ call, inr (call_namespace call)) : ApiCall → nat + string in
  let md : gmap string string := {["name" := ""; "namespace" := "tenant"]} in
  create api (mkManifest (Some md) []) []
  = (inl (ValueError identity_required_msg), []).
Proof.
  intros api md.
  apply (get_manifest_then_create (λ s, s) api "" "tenant" [] "ORD1"
           default_network_config 4 0 None None "32Gi" "300Gi" None
           (mkVirtualServerManifest (GROUP ++ "/" ++ VERSION) "VirtualServer" md
              (mkVirtualServerSpec "ORD1" "linux"
                 (mkResources (mkCpu 4 None) None "32Gi")
                 (mkRootStorage "ReadWriteOnce" "300Gi" "block-nvme-ORD1"
                    default_storage_source))
              default_network_config [] empty_cloud_init "RerunOnFailure" true)
           (mkManifest (Some md) []) []); reflexivity.
Defined.

(** ** [main.py] *)

(** X15. The command [create] obtains an IP address from lines 139-154
    exactly when [client.create] returned an object and a Ready event with
    that address decides the watch. *)
Theorem create_and_wait_ip_iff {Obj : Type} (api : ApiCall → nat + Obj)
    (manifest : Manifest) (namespace name : string) (events : list Event)
    (ending : StreamEnd) (ip : string) :
  (MainFlow.create_and_wait api manifest namespace name events ending).1.1
  = Some (inr ip)
  ↔ (∃ obj, (create api manifest []).1 = inr obj) ∧ ready_decides events ip.
Proof.
  unfold MainFlow.create_and_wait.
  destruct (create api manifest []) as [[e|obj] calls] eqn:Hcreate; simpl.
  - split; [done|]. by intros [[? ?] _].
  - transitivity (caller_view (ready namespace name "Ready" true events ending)
                  = Some (inr (IpDict ip))).
    + destruct (ready namespace name "Ready" true events ending)
        as [st|[|ip'] st|e st]; simpl; split; intros; by simplify_eq.
    + rewrite ready_view_ip.
      split; [intros [_ H]; split; [by eexists|done] | by intros [_ H]].
Qed.

Lemma create_error_not_no_ip {Obj : Type} (api : ApiCall → nat + Obj)
    (manifest : Manifest) (calls : list ApiCall) (e : exn) :
  (create api manifest calls).1 = inl e → e ≠ ValueError Main.no_ip_msg.
Proof.
  unfold create, subscript.
  destruct (metadata manifest) as [md|]; simpl; [|by intros [= <-]].
  case_bool_decide; simpl; [by intros [= <-]|].
  destruct (md !! "namespace"); simpl; [|by intros [= <-]].
  destruct (md !! "name"); simpl; [|by intros [= <-]].
  destruct (_ || _); simpl; [intros [= <-]; discriminate|].
  destruct (api _); simpl; by intros [= <-].
Qed.

(** X16. Lines 139-154 end in the [ValueError] for a missing IP address
    exactly when [client.create] returned an object and the watch for
    Ready handed back [None]: an event of type ['DELETE'] decided it, or
    every event was passed over and the stream was exhausted.  The one
    other way is a stream that raises that very exception itself. *)
Theorem create_and_wait_no_ip_iff {Obj : Type} (api : ApiCall → nat + Obj)
    (manifest : Manifest) (namespace name : string) (events : list Event)
    (ending : StreamEnd) :
  (MainFlow.create_and_wait api manifest namespace name events ending).1.1
  = Some (inl (ValueError Main.no_ip_msg))
  ↔ (∃ obj, (create api manifest []).1 = inr obj)
    ∧ (delete_decides "Ready" events
       ∨ (Forall (unmatched "Ready") events
          ∧ (ending = Exhausted
             ∨ ending = Broken (ValueError Main.no_ip_msg)))).
Proof.
  unfold MainFlow.create_and_wait.
  pose proof (create_error_not_no_ip api manifest []) as Hne.
  destruct (create api manifest []) as [[e|obj] calls] eqn:Hcreate; simpl in *.
  - split; [|by intros [[? ?] _]]. intros [= ->]. by destruct (Hne _ eq_refl).
  - transitivity
      (caller_view (ready namespace name "Ready" true events ending)
       = Some (inr PyNone)
       ∨ caller_view (ready namespace name "Ready" true events ending)
         = Some (inl (ValueError Main.no_ip_msg))).
    + destruct (ready namespace name "Ready" true events ending)
        as [st|[|ip'] st|e st]; simpl; split;
        try (intros [?|?]); intros; simplify_eq; auto.
    + rewrite ready_view_none, ready_view_stream_exception by done.
      split.
      * intros [[?|[-> ?]]|[-> ?]]; (split; [by eexists|]); auto.
      * intros [_ [?|[? [->| ->]]]]; auto.
Qed.

(** X17. Run as a script with [KUBERNETES_NAMESPACE] unset, [main.py]
    ends in the [KeyError] of [os.environ[...]], raised while its commands
    are defined: the check of lines 224-225 is reached only with the
    variable set, so its [ValueError] is never raised. *)
Theorem run_script_namespace_unset (environ : gmap string string)
    (client_init : option exn) :
  (client_init = None → environ !! "KUBERNETES_NAMESPACE" = None →
   MainFlow.run_script environ client_init = inl (KeyError "KUBERNETES_NAMESPACE"))
  ∧ (client_init ≠ Some (ValueError MainFlow.namespace_not_set_msg) →
     MainFlow.run_script environ client_init
     ≠ inl (ValueError MainFlow.namespace_not_set_msg)).
Proof.
  unfold MainFlow.run_script, subscript. split.
  - by intros -> ->.
  - intros Hinit. destruct client_init as [e|]; [congruence|].
    destruct (environ !! "KUBERNETES_NAMESPACE") eqn:E; [|done].
    by rewrite bool_decide_eq_false_2.
Qed.

Lemma run_script_namespace_unset_witness :
  MainFlow.run_script ∅ None = inl (KeyError "KUBERNETES_NAMESPACE")
  ∧ MainFlow.run_script {["HOME" := "/root"]} None
    ≠ inl (ValueError MainFlow.namespace_not_set_msg).
Proof.
  split.
  - apply (proj1 (run_script_namespace_unset ∅ None)); reflexivity.
  - apply (proj2 (run_script_namespace_unset {["HOME" := "/root"]} None)).
    discriminate.
Defined.

(** X18. [ready] is still suspended in the stream exactly when the stream
    is blocked and every event delivered so far was passed over: none was
    a deletion, and each had no conditions or a first condition that is
    not the requested outcome. *)
Theorem ready_waiting_iff_unmatched (namespace name expected_status : string)
    (progress : bool) (events : list Event) (ending : StreamEnd) :
  decided (ready namespace name expected_status progress events ending) = false
  ↔ ending = Blocked ∧ Forall (unmatched expected_status) events.
Proof.
  rewrite ready_unfold.
  set (st0 := initial_state namespace name expected_status progress).
  split.
  - destruct (wait_loop name expected_status events ending st0) as [st| |] eqn:Hrun;
      try done.
    intros _. by destruct (wait_loop_waiting_inv _ _ _ _ _ _ Hrun) as (? & ? & _).
  - intros [-> Hall].
    by destruct (wait_loop_unmatched name expected_status events st0 Hall)
      as (st & -> & _).
Qed.
